(** * CLIP image search notebook: embedding-search core

    Shallow embedding of the image-search notebook (the second notebook
    stored in [src/notebookes/bark-text-to-audio.ipynb]): the model table
    [MODELS], [load_model], the dataset embedding loop, [search_images] and
    [gradio_search].

    Modelling choices.
    - Embedding entries and similarity scores are rationals ([Q]); the
      float32 rounding of numpy and NaN/Inf are outside the model.
    - The third-party libraries (clip, open_clip, PIL, torch, numpy's
      [argsort]) are the fields of the class [Library]; whatever they may
      raise is a value of [exn].
    - The module-level names that [search_images] reads form the record
      [globals]. *)

From Stdlib Require Import QArith.
From stdpp Require Import gmap strings list sorting.

Local Open Scope Q_scope.
Local Open Scope string_scope.
Local Open Scope list_scope.

(** ** Exceptions and fallible computations *)

Inductive exn : Type :=
| NameError (name : string)      (* reading a name that is not bound *)
| KeyError (key : string)        (* dict subscript with an absent key *)
| IndexError                     (* list / array subscript out of range *)
| ValueError                     (* matmul on mismatching inner dimensions *)
| RuntimeError                   (* torch.cat on nothing or on ragged rows *)
| LibraryError (what : string).  (* anything raised inside a library call *)

Inductive result (A : Type) : Type :=
| Ok (a : A)
| Raise (e : exn).
Arguments Ok {A} a.
Arguments Raise {A} e.

Definition bind {A B} (c : result A) (k : A -> result B) : result B :=
  match c with
  | Ok a => k a
  | Raise e => Raise e
  end.

Notation "'let*' x := c 'in' k" := (bind c (fun x => k))
  (at level 10, x pattern, c at level 100, k at level 200).

(** ** Numeric arrays *)

(** A one-dimensional array, and a row of a two-dimensional one. *)
Definition vector := list Q.

Definition Qgtb (x y : Q) : bool := negb (Qle_bool x y).

#[global] Instance Qle_decision (x y : Q) : Decision (x <= y) :=
  match Qlt_le_dec y x with
  | left H => right (Qlt_not_le _ _ H)
  | right H => left H
  end.

#[global] Instance Qlt_decision (x y : Q) : Decision (x < y) :=
  match Qlt_le_dec x y with
  | left H => left H
  | right H => right (Qle_not_lt _ _ H)
  end.

Definition dot (u v : vector) : Q := fold_right Qplus 0 (zip_with Qmult u v).

(** The entries of [(image_features @ text_features.T).squeeze(1)]: one dot
    product per row of [image_features]. *)
Definition similarities (image_features : list vector) (text_features : vector)
  : list Q :=
  map (fun row => dot row text_features) image_features.

(** [(image_features @ text_features.T).squeeze(1)] for [image_features] of
    shape (N, d) and [text_features] of shape (1, d'): numpy raises
    ValueError unless d = d'. *)
Definition matmul_T (image_features : list vector) (text_features : vector)
  : result (list Q) :=
  if forallb (fun row => Nat.eqb (length row) (length text_features)) image_features
  then Ok (similarities image_features text_features)
  else Raise ValueError.

(** [similarities[i]] for an index in range. *)
Definition sim_at (similarities : list Q) (i : nat) : Q := nth i similarities 0.

(** Python's [l[:k]]: a negative [k] counts from the end. *)
Definition slice_to {A} (k : Z) (l : list A) : list A :=
  if (0 <=? k)%Z then take (Z.to_nat k) l
  else take (length l - Z.to_nat (- k)) l.

(** Python's [l[i]] for a non-negative [i]. *)
Definition subscript {A} (l : list A) (i : nat) : result A :=
  match l !! i with
  | Some x => Ok x
  | None => Raise IndexError
  end.

(** [torch.cat] of 1 x d tensors along dimension 0. *)
Definition torch_cat (tensors : list vector) : result (list vector) :=
  match tensors with
  | [] => Raise RuntimeError
  | t :: _ =>
      if forallb (fun u => Nat.eqb (length u) (length t)) tensors
      then Ok tensors else Raise RuntimeError
  end.

(** ** The libraries the notebook calls *)

Class Library : Type := {
  image : Type;          (* PIL image *)
  label : Type;          (* CIFAR100 class index *)
  tensor : Type;         (* preprocessed image batch *)
  tokens : Type;         (* tokenized query *)
  Model : Type;
  Preprocess : Type;
  convert_rgb : image -> image;                                 (* image.convert('RGB') *)
  clip_load : string -> result (Model * Preprocess);            (* clip.load(name, device) *)
  open_clip_create : string -> string -> result (Model * Preprocess);
                                (* open_clip.create_model_and_transforms *)
  run_preprocess : Preprocess -> image -> result tensor;        (* preprocess(image)... *)
  encode_image : Model -> tensor -> result vector;              (* model.encode_image *)
  tokenize : string -> result tokens;                           (* clip.tokenize([query]) *)
  encode_text : Model -> tokens -> result vector;               (* model.encode_text *)
  argsort : list Q -> list nat                                  (* ndarray.argsort() *)
}.

(** What numpy documents of [argsort] with the default [kind]: the indices
    that sort the array in ascending order.  The default sort is not stable,
    so nothing is said about the order of equal entries. *)
Definition argsort_sorts (f : list Q -> list nat) : Prop :=
  forall a : list Q,
    f a ≡ₚ seq 0 (length a) /\
    Sorted (fun i j : nat => nth i a 0 <= nth j a 0) (f a).

(** Two sorts that fit the description.  The first merge-sorts the indices
    from their ascending list.  The second is not stable on arrays of four
    entries or more, where it starts from the descending index list; below
    that length it is the first one, which leaves two equal entries in index
    order. *)
Definition argsort_asc (a : list Q) : list nat :=
  merge_sort (fun i j : nat => nth i a 0 <= nth j a 0) (seq 0 (length a)).



(** ** Model table and loader *)

Record model_config : Type := {
  cfg_type : string;
  cfg_name : string;
  cfg_pretrained : option string
}.

Definition MODELS : gmap string model_config :=
  list_to_map
    [ ("CLIP (ViT-B/32)",
       {| cfg_type := "clip"; cfg_name := "ViT-B/32"; cfg_pretrained := None |});
      ("OpenCLIP (ViT-B-32)",
       {| cfg_type := "open_clip"; cfg_name := "ViT-B-32";
          cfg_pretrained := Some "laion2b_s34b_b79k" |});
      ("OpenCLIP (ViT-L-14)",
       {| cfg_type := "open_clip"; cfg_name := "ViT-L-14";
          cfg_pretrained := Some "laion2b_s32b_b82k" |}) ].

Definition default_model_choice : string := "CLIP (ViT-B/32)".

Section Notebook.
Context `{L : Library}.

Definition load_model (model_choice : string) : result (Model * Preprocess) :=
  match MODELS !! model_choice with
  | None => Raise (KeyError model_choice)
  | Some model_config =>
      if String.eqb (cfg_type model_config) "clip"
      then clip_load (cfg_name model_config)
      else match cfg_pretrained model_config with
           | None => Raise (KeyError "pretrained")
           | Some pretrained => open_clip_create (cfg_name model_config) pretrained
           end
  end.

(** ** Dataset embedding loop *)

(** The [for image, _ in dataset] loop; the two accumulators are the lists
    [image_features] and [processed_images].  Nothing catches an exception
    of the body. *)
Fixpoint embed_loop (model : Model) (preprocess : Preprocess)
    (dataset : list (image * label))
    (image_features : list vector) (processed_images : list image)
  : result (list vector * list image) :=
  match dataset with
  | [] => Ok (image_features, processed_images)
  | (image, _) :: rest =>
      let image := convert_rgb image in
      let processed_images := processed_images ++ [image] in
      let* image_input := run_preprocess preprocess image in
      let* features := encode_image model image_input in
      embed_loop model preprocess rest (image_features ++ [features]) processed_images
  end.

(** What one pass of the loop body computes for an image of the dataset. *)
Definition embed_item (model : Model) (preprocess : Preprocess) (image : image)
  : result vector :=
  let* image_input := run_preprocess preprocess (convert_rgb image) in
  encode_image model image_input.

(** The whole cell: both lists start empty, the loop runs, the features are
    stacked. *)
Definition dataset_cell (model : Model) (preprocess : Preprocess)
    (dataset : list (image * label)) : result (list vector * list image) :=
  let* (image_features, processed_images) :=
    embed_loop model preprocess dataset [] [] in
  let* image_features := torch_cat image_features in
  Ok (image_features, processed_images).

(** ** Module-level state *)

(** [current_model] is [None] while the name is unbound. *)
Record globals : Type := {
  model : Model;
  preprocess : Preprocess;
  image_features : list vector;
  processed_images : list image;
  current_model : option string
}.

(** Running the notebook top to bottom.  No cell assigns [current_model]. *)
Definition notebook (dataset : list (image * label)) : result globals :=
  let* (model, preprocess) := load_model default_model_choice in
  let* (image_features, processed_images) := dataset_cell model preprocess dataset in
  Ok {| model := model; preprocess := preprocess;
        image_features := image_features; processed_images := processed_images;
        current_model := None |}.

(** ** Search *)

(** [[processed_images[i] for i in best_photo_idx
      if similarities[i] > similarity_threshold]] *)
Fixpoint comprehension (processed_images : list image) (similarities : list Q)
    (similarity_threshold : Q) (best_photo_idx : list nat) : result (list image) :=
  match best_photo_idx with
  | [] => Ok []
  | i :: rest =>
      let* s := subscript similarities i in
      if Qgtb s similarity_threshold
      then let* x := subscript processed_images i in
           let* xs := comprehension processed_images similarities
                        similarity_threshold rest in
           Ok (x :: xs)
      else comprehension processed_images similarities similarity_threshold rest
  end.

(** The part of [search_images] from "Calculate similarities" on. [None] is
    Python's [None]. *)
Definition rank_step (image_features : list vector) (processed_images : list image)
    (text_features : vector) (num_results : Z) (similarity_threshold : Q)
  : result (option (list image)) :=
  let* similarities := matmul_T image_features text_features in
  let valid_matches := map (fun s => Qgtb s similarity_threshold) similarities in
  if negb (existsb id valid_matches) then Ok None
  else
    let best_photo_idx := slice_to num_results (argsort (map Qopp similarities)) in
    let* images := comprehension processed_images similarities
                     similarity_threshold best_photo_idx in
    Ok (Some images).

(** The indices the comprehension of [rank_step] keeps, in its order. *)
Definition matching_idx (similarities : list Q) (num_results : Z)
    (similarity_threshold : Q) : list nat :=
  filter (fun i => similarity_threshold < sim_at similarities i)
    (slice_to num_results (argsort (map Qopp similarities))).

(** [search_images]; the second component is the module state after the
    call ([model] and [preprocess] are declared [global]). *)
Definition search_images (query : string) (model_choice : string)
    (num_results : Z) (similarity_threshold : Q) (g : globals)
  : result (option (list image)) * globals :=
  match current_model g with
  | None => (Raise (NameError "current_model"), g)
  | Some current =>
      let switched :=
        if negb (String.eqb model_choice current)
        then let* (model, preprocess) := load_model model_choice in
             Ok {| model := model; preprocess := preprocess;
                   image_features := image_features g;
                   processed_images := processed_images g;
                   current_model := current_model g |}
        else Ok g in
      match switched with
      | Raise e => (Raise e, g)
      | Ok g' =>
          (let* toks := tokenize query in
           let* text_features := encode_text (model g') toks in
           rank_step (image_features g') (processed_images g') text_features
             num_results similarity_threshold,
           g')
      end
  end.

(** [gradio_search]: [num_results] keeps its default 9; [None] entries pad
    the grid. *)
Definition gradio_search (query : string) (model_choice : string)
    (similarity_threshold : Q) (g : globals)
  : result (list (option image)) * globals :=
  let '(r, g') := search_images query model_choice 9 similarity_threshold g in
  (let* results := r in
   match results with
   | None => Ok (replicate 9 None)
   | Some results =>
       Ok (map Some results ++ replicate (9 - length results) None)
   end, g').

(** The module states a session can be in: the notebook has run, then the
    form calls [gradio_search] or somebody calls [search_images]. *)
Inductive reachable (dataset : list (image * label)) : globals -> Prop :=
| reach_notebook g :
    notebook dataset = Ok g -> reachable dataset g
| reach_search g query model_choice num_results similarity_threshold :
    reachable dataset g ->
    reachable dataset
      (snd (search_images query model_choice num_results similarity_threshold g))
| reach_gradio g query model_choice similarity_threshold :
    reachable dataset g ->
    reachable dataset (snd (gradio_search query model_choice similarity_threshold g)).

End Notebook.

(** ** A small concrete library

    Images are numbered; backend 0 is what [clip.load "ViT-B/32"] gives,
    backends 1 and 2 are the two OpenCLIP variants.  Backends 0 and 1 embed
    into two dimensions, backend 2 into three.  Image 7 cannot be
    embedded. *)
Module Demo.

Definition embed (m : nat) (x : nat) : result vector :=
  match m, x with
  | 0%nat, 0%nat => Ok [1; 0]
  | 0%nat, 1%nat => Ok [0; 1]
  | 0%nat, 2%nat => Ok [7#10; 7#10]
  | 1%nat, 0%nat => Ok [0; 1]
  | 1%nat, 1%nat => Ok [1; 0]
  | 1%nat, 2%nat => Ok [7#10; 7#10]
  | 2%nat, 0%nat => Ok [1; 0; 0]
  | 2%nat, 1%nat => Ok [0; 1; 0]
  | 2%nat, 2%nat => Ok [0; 0; 1]
  | _, _ => Raise (LibraryError "encode_image")
  end.

Definition text (m : nat) (q : string) : result vector :=
  match m with
  | 0%nat | 1%nat => Ok [1; 0]
  | _ => Ok [1; 0; 0]
  end.

Definition load_clip (name : string) : result (nat * nat) :=
  if String.eqb name "ViT-B/32" then Ok (0%nat, 0%nat)
  else Raise (LibraryError "clip.load").

Definition load_open_clip (name pretrained : string) : result (nat * nat) :=
  if String.eqb name "ViT-B-32" then Ok (1%nat, 1%nat)
  else if String.eqb name "ViT-L-14" then Ok (2%nat, 2%nat)
  else Raise (LibraryError "open_clip.create_model_and_transforms").

Definition lib_with (sort : list Q -> list nat) : Library :=
  {| image := nat; label := unit; tensor := nat; tokens := string;
     Model := nat; Preprocess := nat;
     convert_rgb := fun x => x;
     clip_load := load_clip;
     open_clip_create := load_open_clip;
     run_preprocess := fun _ x => Ok x;
     encode_image := embed;
     tokenize := fun q => Ok q;
     encode_text := text;
     argsort := sort |}.

Definition lib : Library := lib_with argsort_asc.

Definition dataset : list (nat * unit) := [(0%nat, tt); (1%nat, tt); (2%nat, tt)].

(** The three-item collection of backend 0. *)
Definition features3 : list vector := [[1; 0]; [0; 1]; [7#10; 7#10]].

(** The module state after the notebook has run on [dataset]. *)
Definition started : @globals lib :=
  @Build_globals lib 0%nat 0%nat features3 [0; 1; 2]%nat None.

(** The same state in a session where [current_model] had been bound to the
    name of the loaded model. *)
Definition started_bound : @globals lib :=
  @Build_globals lib 0%nat 0%nat features3 [0; 1; 2]%nat (Some default_model_choice).

End Demo.

(** ** The Bark text-to-audio notebook

    The first notebook of the same file: a table of voice presets and
    [generate_audio_from_text], which the form calls.  The working directory
    is a finite map from paths to what [write_wav] stored there (sample rate
    and samples); scipy's [write] creates the file or replaces its
    content. *)

Definition VOICE_PRESETS : gmap string string :=
  list_to_map
    [ ("Announcer (Male)", "v2/en_speaker_6");
      ("Narrator (Female)", "v2/en_speaker_9");
      ("Professional (Male)", "v2/en_speaker_3");
      ("Casual (Female)", "v2/en_speaker_7");
      ("Elder (Male)", "v2/en_speaker_5");
      ("Young (Female)", "v2/en_speaker_8") ].

Class BarkLibrary : Type := {
  audio : Type;                                   (* array of samples *)
  SAMPLE_RATE : Z;                                (* bark.SAMPLE_RATE *)
  generate_audio : string -> string -> Q -> result audio
                       (* generate_audio(text, history_prompt=, temperature=) *)
}.

Section Bark.
Context `{B : BarkLibrary}.

Definition write_wav (path : string) (rate : Z) (data : audio)
    (files : gmap string (Z * audio)) : gmap string (Z * audio) :=
  <[path := (rate, data)]> files.

Definition generate_audio_from_text (text voice_preset : string) (temperature : Q)
    (files : gmap string (Z * audio)) : result string * gmap string (Z * audio) :=
  match VOICE_PRESETS !! voice_preset with
  | None => (Raise (KeyError voice_preset), files)
  | Some history_prompt =>
      match generate_audio text history_prompt temperature with
      | Raise e => (Raise e, files)
      | Ok audio_array =>
          let output_path := "output.wav" in
          (Ok output_path, write_wav output_path SAMPLE_RATE audio_array files)
      end
  end.

End Bark.

(** A concrete Bark: the samples are the text tagged with the speaker; the
    empty text cannot be spoken. *)
Module BarkDemo.

Definition speak (text history_prompt : string) (temperature : Q) : result string :=
  if String.eqb text "" then Raise (LibraryError "generate_audio")
  else Ok (String.append history_prompt (String.append ": " text)).

Definition lib : BarkLibrary :=
  {| audio := string; SAMPLE_RATE := 24000; generate_audio := speak |}.

End BarkDemo.

(** * Properties *)

(** ** Arithmetic and list helpers *)

Lemma Qgtb_true (x y : Q) : Qgtb x y = true <-> y < x.
Proof.
  unfold Qgtb. rewrite negb_true_iff. split.
  - intros H. apply Qnot_le_lt. intros Hle.
    apply Qle_bool_iff in Hle. congruence.
  - intros H. destruct (Qle_bool x y) eqn:E; [|reflexivity].
    apply Qle_bool_iff in E. exfalso. exact (Qlt_not_le _ _ H E).
Qed.

Lemma Qgtb_false (x y : Q) : Qgtb x y = false <-> x <= y.
Proof.
  unfold Qgtb. rewrite negb_false_iff. apply Qle_bool_iff.
Qed.

Lemma sim_at_lookup (sims : list Q) (i : nat) (s : Q) :
  sims !! i = Some s -> sim_at sims i = s.
Proof. intros H. unfold sim_at. by apply nth_lookup_Some. Qed.

Lemma sim_at_opp (sims : list Q) (i : nat) :
  nth i (map Qopp sims) 0 = - sim_at sims i.
Proof. unfold sim_at. change 0 with (- 0) at 1. apply map_nth. Qed.

Lemma Qopp_le_reflect (x y : Q) : - x <= - y -> y <= x.
Proof. unfold Qle, Qopp. simpl. lia. Qed.

Lemma StronglySorted_sublist {A} (R : relation A) (l1 l2 : list A) :
  l1 `sublist_of` l2 -> StronglySorted R l2 -> StronglySorted R l1.
Proof.
  induction 1 as [|x l1 l2 Hsub IH|x l1 l2 Hsub IH]; intros Hs.
  - constructor.
  - apply StronglySorted_inv in Hs as [Hs Hall]. constructor; [by apply IH|].
    rewrite Forall_forall in Hall |- *. intros y Hy. apply Hall.
    by eapply elem_of_sublist.
  - apply StronglySorted_inv in Hs as [Hs _]. by apply IH.
Qed.

Lemma StronglySorted_weaken {A} (R1 R2 : relation A) (l : list A) :
  (forall x y, R1 x y -> R2 x y) -> StronglySorted R1 l -> StronglySorted R2 l.
Proof.
  intros HR. induction 1 as [|x l Hs IH Hall]; constructor; [done|].
  eapply Forall_impl; [exact Hall|]. intros y. apply HR.
Qed.

Lemma slice_to_sublist {A} (k : Z) (l : list A) : slice_to k l `sublist_of` l.
Proof. unfold slice_to. destruct (0 <=? k)%Z; apply sublist_take. Qed.

Lemma slice_to_length {A} (k : Z) (l : list A) :
  (0 <= k)%Z -> (Z.of_nat (length (slice_to k l)) <= k)%Z.
Proof.
  intros Hk. unfold slice_to. destruct (Z.leb_spec 0 k); [|lia].
  rewrite length_take. lia.
Qed.


Section Ranking.
Context `{L : Library}.

Implicit Types (feats : list vector) (imgs : list image) (q : vector).
Implicit Types (sims : list Q) (idx : list nat) (k : Z) (t : Q).

(** ** [matmul_T] *)

Lemma matmul_T_Ok feats q sims :
  matmul_T feats q = Ok sims ->
  sims = similarities feats q /\ Forall (fun row => length row = length q) feats.
Proof.
  unfold matmul_T.
  destruct (forallb (fun row => Nat.eqb (length row) (length q)) feats) eqn:E;
    [|discriminate].
  intros [= <-]. split; [reflexivity|].
  rewrite forallb_forall in E. apply Forall_forall. intros row Hrow.
  apply Nat.eqb_eq, E. by apply list_elem_of_In.
Qed.

Lemma matmul_T_total feats q :
  Forall (fun row => length row = length q) feats ->
  matmul_T feats q = Ok (similarities feats q).
Proof.
  intros Hdim. unfold matmul_T.
  replace (forallb (fun row => Nat.eqb (length row) (length q)) feats) with true;
    [reflexivity|].
  symmetry. apply forallb_forall. intros row Hrow. apply Nat.eqb_eq.
  rewrite Forall_forall in Hdim. apply Hdim. by apply list_elem_of_In.
Qed.

Lemma similarities_lookup feats q i :
  (i < length (similarities feats q))%nat ->
  exists row, feats !! i = Some row /\ sim_at (similarities feats q) i = dot row q.
Proof.
  unfold similarities. rewrite length_map. intros Hi.
  destruct (lookup_lt_is_Some_2 feats i Hi) as [row Hrow].
  exists row. split; [done|]. apply sim_at_lookup.
  by rewrite list_lookup_fmap, Hrow.
Qed.

Lemma valid_matches_any sims t :
  existsb id (map (fun s => Qgtb s t) sims) = true <-> Exists (fun s => t < s) sims.
Proof.
  induction sims as [|s sims IH]; simpl.
  - split; [discriminate|]. by intros ?%Exists_nil.
  - rewrite orb_true_iff, Exists_cons, IH. by rewrite Qgtb_true.
Qed.

(** ** The list comprehension *)

Lemma comprehension_Ok imgs sims t idx : forall res,
  comprehension imgs sims t idx = Ok res ->
  Forall2 (fun i x => imgs !! i = Some x)
    (filter (fun i => t < sim_at sims i) idx) res /\
  Forall (fun i => (i < length sims)%nat) idx.
Proof.
  induction idx as [|i idx IH]; intros res; simpl.
  - intros [= <-]. split; constructor.
  - unfold subscript at 1. destruct (sims !! i) as [s|] eqn:Es; [|discriminate].
    simpl. pose proof (sim_at_lookup _ _ _ Es) as Hs.
    assert (i < length sims)%nat as Hi by (apply lookup_lt_is_Some; eauto).
    destruct (Qgtb s t) eqn:Egt.
    + apply Qgtb_true in Egt.
      unfold subscript at 1. destruct (imgs !! i) as [x|] eqn:Ex; [|discriminate].
      simpl. destruct (comprehension imgs sims t idx) as [xs|] eqn:Erest;
        [|discriminate].
      simpl. intros [= <-]. destruct (IH _ eq_refl) as [IH1 IH2].
      split; [|by constructor].
      rewrite filter_cons_True by (by rewrite Hs). by constructor.
    + apply Qgtb_false in Egt. intros Hrest.
      destruct (IH _ Hrest) as [IH1 IH2]. split; [|by constructor].
      rewrite filter_cons_False; [done|].
      rewrite Hs. by apply Qle_not_lt.
Qed.

Lemma comprehension_total imgs sims t idx :
  Forall (fun i => (i < length sims)%nat /\ (i < length imgs)%nat) idx ->
  exists res, comprehension imgs sims t idx = Ok res.
Proof.
  induction 1 as [|i idx [Hs Hi] _ [res IH]]; simpl; [by eexists|].
  destruct (lookup_lt_is_Some_2 _ _ Hs) as [s Es].
  destruct (lookup_lt_is_Some_2 _ _ Hi) as [x Ex].
  unfold subscript. rewrite Es, Ex, IH. simpl.
  destruct (Qgtb s t); eauto.
Qed.

(** ** [rank_step] *)

(** What a returned list tells about the run. *)
Lemma rank_step_Some feats imgs q k t res :
  rank_step feats imgs q k t = Ok (Some res) ->
  Forall (fun row => length row = length q) feats /\
  Exists (fun s => t < s) (similarities feats q) /\
  Forall2 (fun i x => imgs !! i = Some x)
    (matching_idx (similarities feats q) k t) res /\
  Forall (fun i => (i < length feats)%nat) (matching_idx (similarities feats q) k t).
Proof.
  unfold rank_step. destruct (matmul_T feats q) as [sims|] eqn:Em; [|discriminate].
  apply matmul_T_Ok in Em as [-> Hdim]. simpl.
  destruct (existsb id _) eqn:Eany; simpl; [|discriminate].
  apply valid_matches_any in Eany.
  destruct (comprehension _ _ _ _) as [xs|] eqn:Ec; [|discriminate].
  simpl. intros [= <-]. apply comprehension_Ok in Ec as [Hres Hrange].
  repeat split; try done.
  unfold matching_idx. apply Forall_forall. intros i Hi.
  apply list_elem_of_filter in Hi as [_ Hi].
  rewrite Forall_forall in Hrange. specialize (Hrange i Hi).
  unfold similarities in Hrange. by rewrite length_map in Hrange.
Qed.

(** The indices [argsort] yields are those of the array. *)
Lemma argsort_range a i :
  argsort_sorts argsort -> i ∈ argsort a -> (i < length a)%nat.
Proof.
  intros Hsort Hi. destruct (Hsort a) as [Hperm _].
  rewrite Hperm in Hi. apply elem_of_seq in Hi. lia.
Qed.

(** On a well-shaped collection the ranking step raises nothing. *)
Lemma rank_step_total feats imgs q k t :
  argsort_sorts argsort ->
  length imgs = length feats ->
  Forall (fun row => length row = length q) feats ->
  exists r, rank_step feats imgs q k t = Ok r.
Proof.
  intros Hsort Hlen Hdim. unfold rank_step.
  rewrite (matmul_T_total _ _ Hdim). simpl.
  destruct (existsb id _); simpl; [|by eexists].
  destruct (comprehension_total imgs (similarities feats q) t
              (slice_to k (argsort (map Qopp (similarities feats q))))) as [res ->];
    [|by eexists].
  apply Forall_forall. intros i Hi.
  eapply elem_of_sublist in Hi; [|apply slice_to_sublist].
  apply (argsort_range _ _ Hsort) in Hi.
  rewrite length_map in Hi. unfold similarities in *.
  rewrite length_map in *. lia.
Qed.

(** C2. Every image [rank_step] returns sits at an index of the collection
    whose row has a dot product with the query strictly above the threshold;
    an index whose score is at most the threshold is not among the returned
    ones. *)
Theorem rank_step_above_threshold feats imgs q k t res :
  rank_step feats imgs q k t = Ok (Some res) ->
  let idx := matching_idx (similarities feats q) k t in
  Forall2 (fun i x => imgs !! i = Some x) idx res /\
  Forall (fun i => exists row, feats !! i = Some row /\ t < dot row q) idx /\
  (forall i row, feats !! i = Some row -> dot row q <= t -> i ∉ idx).
Proof.
  intros Hrun. destruct (rank_step_Some _ _ _ _ _ _ Hrun) as (_ & _ & Hres & Hrange).
  simpl. split; [done|]. split.
  - apply Forall_forall. intros i Hi.
    rewrite Forall_forall in Hrange. specialize (Hrange i Hi).
    destruct (similarities_lookup feats q i) as (row & Hrow & Hsim).
    { unfold similarities. by rewrite length_map. }
    exists row. split; [done|]. rewrite <- Hsim.
    unfold matching_idx in Hi. by apply list_elem_of_filter in Hi as [Hi _].
  - intros i row Hrow Hle Hi.
    unfold matching_idx in Hi. apply list_elem_of_filter in Hi as [Hi _].
    erewrite sim_at_lookup in Hi.
    + exact (Qle_not_lt _ _ Hle Hi).
    + unfold similarities. by rewrite list_lookup_fmap, Hrow.
Qed.

(** C8. With [num_results] at least 1 the returned list has at most
    [num_results] entries. *)
Theorem rank_step_length feats imgs q k t res :
  (1 <= k)%Z ->
  rank_step feats imgs q k t = Ok (Some res) ->
  (Z.of_nat (length res) <= k)%Z.
Proof.
  intros Hk Hrun. destruct (rank_step_Some _ _ _ _ _ _ Hrun) as (_ & _ & Hres & _).
  apply Forall2_length in Hres. rewrite <- Hres. unfold matching_idx.
  pose proof (length_filter (fun i => t < sim_at (similarities feats q) i)
                (slice_to k (argsort (map Qopp (similarities feats q))))) as Hf.
  pose proof (slice_to_length k (argsort (map Qopp (similarities feats q)))
                ltac:(lia)) as Hs.
  lia.
Qed.



End Ranking.

(** ** Sorts that fit the description of [argsort] *)

Lemma merge_sort_indices (a : list Q) (l : list nat) :
  l ≡ₚ seq 0 (length a) ->
  merge_sort (fun i j : nat => nth i a 0 <= nth j a 0) l ≡ₚ seq 0 (length a) /\
  Sorted (fun i j : nat => nth i a 0 <= nth j a 0)
    (merge_sort (fun i j : nat => nth i a 0 <= nth j a 0) l).
Proof.
  intros Hl. split.
  - by rewrite merge_sort_Permutation.
  - apply Sorted_merge_sort. intros i j.
    destruct (Qlt_le_dec (nth i a 0) (nth j a 0)) as [H|H]; [left|by right].
    by apply Qlt_le_weak.
Qed.

Lemma argsort_asc_sorts : argsort_sorts argsort_asc.
Proof. intros a. by apply merge_sort_indices. Qed.


(** Where the entries differ pairwise, the description leaves one answer. *)
Lemma strictly_sorted_keys (a : list Q) (l : list nat) :
  StronglySorted (fun i j : nat => nth i a 0 < nth j a 0) l ->
  forall x y, x ∈ l -> y ∈ l ->
    nth x a 0 <= nth y a 0 -> nth y a 0 <= nth x a 0 -> x = y.
Proof.
  induction 1 as [|z l Hs IH Hall]; intros x y Hx Hy Hxy Hyx.
  - by apply elem_of_nil in Hx.
  - rewrite Forall_forall in Hall.
    apply elem_of_cons in Hx as [->|Hx]; apply elem_of_cons in Hy as [->|Hy].
    + reflexivity.
    + exfalso. exact (Qlt_not_le _ _ (Hall _ Hy) Hyx).
    + exfalso. exact (Qlt_not_le _ _ (Hall _ Hx) Hxy).
    + by apply IH.
Qed.

Lemma argsort_unique (f : list Q -> list nat) (a : list Q) (l : list nat) :
  argsort_sorts f ->
  l ≡ₚ seq 0 (length a) ->
  StronglySorted (fun i j : nat => nth i a 0 < nth j a 0) l ->
  f a = l.
Proof.
  intros Hsort Hperm Hstrict. destruct (Hsort a) as [Hfperm Hfsorted].
  apply (StronglySorted_unique_strong (fun i j : nat => nth i a 0 <= nth j a 0)).
  - intros x y Hx Hy Hxy Hyx. rewrite Hfperm, <- Hperm in Hx.
    by eapply strictly_sorted_keys.
  - apply Sorted_StronglySorted; [|done].
    intros x y z ??. by eapply Qle_trans.
  - eapply StronglySorted_weaken; [|exact Hstrict].
    intros x y. apply Qlt_le_weak.
  - by rewrite Hfperm.
Qed.

Section Scenarios.
Context `{L : Library}.

Implicit Types (feats : list vector) (imgs : list image) (q : vector).
Implicit Types (k : Z) (t : Q).

(** [rank_step] past its guard. *)
Lemma rank_step_matches feats imgs q k t :
  Forall (fun row => length row = length q) feats ->
  Exists (fun s => t < s) (similarities feats q) ->
  rank_step feats imgs q k t =
    let* images := comprehension imgs (similarities feats q) t
                     (slice_to k (argsort (map Qopp (similarities feats q)))) in
    Ok (Some images).
Proof.
  intros Hdim Hany. unfold rank_step. rewrite (matmul_T_total _ _ Hdim). simpl.
  apply valid_matches_any in Hany. by rewrite Hany.
Qed.

(** C5 (as the code has it). When no row scores above the threshold, [rank_step]
    returns Python's [None], whatever [num_results] is. *)
Theorem rank_step_no_match feats imgs q k t :
  Forall (fun row => length row = length q /\ dot row q <= t) feats ->
  rank_step feats imgs q k t = Ok None.
Proof.
  intros Hall. unfold rank_step. rewrite matmul_T_total.
  - simpl. destruct (existsb id _) eqn:Eany; [|reflexivity].
    apply valid_matches_any in Eany. apply Exists_exists in Eany as (s & Hs & Hlt).
    apply list_elem_of_fmap in Hs as (row & -> & Hrow).
    rewrite Forall_forall in Hall. destruct (Hall _ Hrow) as [_ Hle].
    exfalso. exact (Qlt_not_le _ _ Hlt Hle).
  - eapply Forall_impl; [exact Hall|]. by intros row [? _].
Qed.

(** C6 (as the code has it). [num_results] is not validated.  On a
    well-shaped collection a call with [num_results <= 0] raises nothing: it
    returns [None] when no row is above the threshold; otherwise it returns
    a list, which is empty for [num_results = 0] and, for [num_results < 0],
    holds the images above the threshold among the ordering without its
    last [- num_results] entries (Python's [[:num_results]]). *)
Theorem rank_step_nonpositive feats imgs q k t :
  argsort_sorts argsort ->
  length imgs = length feats ->
  Forall (fun row => length row = length q) feats ->
  (k <= 0)%Z ->
  let sims := similarities feats q in
  (Forall (fun s => ~ t < s) sims -> rank_step feats imgs q k t = Ok None) /\
  (Exists (fun s => t < s) sims ->
   exists images,
     rank_step feats imgs q k t = Ok (Some images) /\
     (k = 0%Z -> images = []) /\
     ((k < 0)%Z ->
      Forall2 (fun i x => imgs !! i = Some x)
        (filter (fun i => t < sim_at sims i)
           (take (length feats - Z.to_nat (- k)) (argsort (map Qopp sims))))
        images)).
Proof.
  intros Hsort Hlen Hdim Hk sims. split.
  - intros Hnone. unfold rank_step. rewrite (matmul_T_total _ _ Hdim). simpl.
    destruct (existsb id _) eqn:Eany; [|reflexivity].
    apply valid_matches_any in Eany. apply Exists_exists in Eany as (s & Hs & Hlt).
    rewrite Forall_forall in Hnone. by destruct (Hnone s Hs).
  - intros Hany. rewrite rank_step_matches by done. fold sims.
    assert (length (argsort (map Qopp sims)) = length feats) as Hsize.
    { destruct (Hsort (map Qopp sims)) as [Hperm _]. rewrite Hperm.
      unfold sims, similarities. by rewrite length_seq, !length_map. }
    destruct (comprehension_total imgs sims t
                (slice_to k (argsort (map Qopp sims)))) as [images Hc].
    { apply Forall_forall. intros i Hi.
      eapply elem_of_sublist in Hi; [|apply slice_to_sublist].
      apply (argsort_range _ _ Hsort) in Hi.
      unfold sims, similarities in *. rewrite !length_map in *. lia. }
    rewrite Hc. simpl. exists images. split; [done|].
    apply comprehension_Ok in Hc as [Hkept _]. split.
    + intros ->. unfold slice_to in Hkept. simpl in Hkept.
      by apply Forall2_nil_inv_l in Hkept.
    + intros Hneg. unfold slice_to in Hkept.
      destruct (Z.leb_spec 0 k); [lia|]. by rewrite Hsize in Hkept.
Qed.

(** C4 (as the code has it). On the three-item collection [1,0], [0,1],
    [0.7,0.7] the ranking step, given the query vector [1,0], returns images
    and no scores: with [num_results = 2] and threshold 0.5 the images 0 and
    2, in that order (their similarities are 1 and 0.7; image 1, of
    similarity 0, is left out); with [num_results = 1], and with threshold
    0.95, image 0 alone. *)
Theorem scenario_three_items (x0 x1 x2 : image) :
  argsort_sorts argsort ->
  let feats := [[1; 0]; [0; 1]; [7#10; 7#10]] in
  let imgs := [x0; x1; x2] in
  let sims := similarities feats [1; 0] in
  rank_step feats imgs [1; 0] 2 (1#2) = Ok (Some [x0; x2]) /\
  matching_idx sims 2 (1#2) = [0; 2]%nat /\
  sim_at sims 0 == 1 /\ sim_at sims 2 == 7#10 /\ sim_at sims 1 == 0 /\
  rank_step feats imgs [1; 0] 1 (1#2) = Ok (Some [x0]) /\
  rank_step feats imgs [1; 0] 2 (95#100) = Ok (Some [x0]).
Proof.
  intros Hsort feats imgs sims.
  assert (argsort (map Qopp sims) = [0; 2; 1]%nat) as Hidx.
  { apply argsort_unique; [done| |].
    - apply perm_skip, perm_swap.
    - repeat constructor. }
  assert (Forall (fun row => length row = length [1; 0]) feats) as Hdim
    by (repeat constructor).
  assert (forall k t, t < 1 -> rank_step feats imgs [1; 0] k t =
            let* images := comprehension imgs sims t (slice_to k [0; 2; 1]%nat) in
            Ok (Some images)) as Hrun.
  { intros k t Ht. rewrite rank_step_matches; [by fold sims; rewrite Hidx|done|].
    apply Exists_cons_hd. exact Ht. }
  repeat split.
  - by rewrite Hrun.
  - unfold matching_idx. by rewrite Hidx.
  - by rewrite Hrun.
  - by rewrite Hrun.
Qed.

End Scenarios.

Section Build.
Context `{L : Library}.

Implicit Types (m : Model) (p : Preprocess) (ds : list (image * label)).
Implicit Types (fs : list vector) (imgs : list image).

(** ** The embedding loop *)

Lemma torch_cat_Ok (ts rows : list vector) : torch_cat ts = Ok rows -> rows = ts.
Proof.
  destruct ts as [|t ts]; simpl; [discriminate|].
  destruct (_ && _); [|discriminate]. by intros [= <-].
Qed.

Lemma embed_loop_Ok m p ds : forall fs imgs fs' imgs',
  embed_loop m p ds fs imgs = Ok (fs', imgs') ->
  imgs' = imgs ++ map (fun d => convert_rgb d.1) ds /\
  exists new, fs' = fs ++ new /\
              Forall2 (fun d f => embed_item m p d.1 = Ok f) ds new.
Proof.
  induction ds as [|[x l] ds IH]; intros fs imgs fs' imgs'; simpl.
  - intros [= <- <-]. split; [by rewrite app_nil_r|].
    exists []. split; [by rewrite app_nil_r|constructor].
  - destruct (run_preprocess p (convert_rgb x)) as [inp|] eqn:Ep; [|discriminate].
    simpl. destruct (encode_image m inp) as [f|] eqn:Ee; [|discriminate].
    simpl. intros Hrest. apply IH in Hrest as (-> & new & -> & Hnew).
    split; [by rewrite <- app_assoc|].
    exists (f :: new). split; [by rewrite <- app_assoc|].
    constructor; [|done]. unfold embed_item. simpl. by rewrite Ep.
Qed.

Lemma embed_loop_Raise m p pre x l post e : forall fs imgs,
  Forall (fun d => exists f, embed_item m p d.1 = Ok f) pre ->
  embed_item m p x = Raise e ->
  embed_loop m p (pre ++ (x, l) :: post) fs imgs = Raise e.
Proof.
  induction pre as [|[y ly] pre IH]; intros fs imgs Hpre Hx; simpl.
  - unfold embed_item in Hx.
    destruct (run_preprocess p (convert_rgb x)) as [inp|]; simpl in *;
      [|congruence].
    by rewrite Hx.
  - apply Forall_cons in Hpre as [[f Hf] Hpre]. unfold embed_item in Hf.
    simpl in Hf.
    destruct (run_preprocess p (convert_rgb y)) as [inp|]; simpl in *;
      [|discriminate].
    rewrite Hf. simpl. by apply IH.
Qed.

Lemma dataset_cell_Ok m p ds fs imgs :
  dataset_cell m p ds = Ok (fs, imgs) ->
  imgs = map (fun d => convert_rgb d.1) ds /\
  Forall2 (fun d f => embed_item m p d.1 = Ok f) ds fs.
Proof.
  unfold dataset_cell.
  destruct (embed_loop m p ds [] []) as [[fs0 imgs0]|] eqn:Eloop; [|discriminate].
  simpl. destruct (torch_cat fs0) as [rows|] eqn:Ecat; [|discriminate].
  simpl. intros [= <- <-]. apply torch_cat_Ok in Ecat as ->.
  apply embed_loop_Ok in Eloop as (-> & new & -> & Hnew). by split.
Qed.

(** C7 (as the code has it). The loop has no handler: once the items before it have
    been embedded, the first item whose embedding raises makes the whole
    cell raise that exception, so no collection comes out; and a collection
    that does come out has one row and one image for every item of the
    dataset, none left out. *)
Theorem dataset_cell_aborts m p :
  (forall pre x l post e,
      Forall (fun d => exists f, embed_item m p d.1 = Ok f) pre ->
      embed_item m p x = Raise e ->
      dataset_cell m p (pre ++ (x, l) :: post) = Raise e) /\
  (forall ds fs imgs,
      dataset_cell m p ds = Ok (fs, imgs) ->
      length fs = length ds /\ length imgs = length ds).
Proof.
  split.
  - intros pre x l post e Hpre Hx. unfold dataset_cell.
    by rewrite (embed_loop_Raise m p pre x l post e [] [] Hpre Hx).
  - intros ds fs imgs Hcell. apply dataset_cell_Ok in Hcell as [-> Hfs].
    apply Forall2_length in Hfs. by rewrite length_map.
Qed.

(** C9. Two builds of the same item sequence that both succeed give the
    same index-to-image mapping, which is the dataset in ingestion order
    (image [i] of the collection is item [i] converted to RGB, row [i] is
    its embedding); with the same model and preprocessing the rows agree
    too. *)
Theorem dataset_cell_deterministic m p m' p' ds fs imgs fs' imgs' :
  dataset_cell m p ds = Ok (fs, imgs) ->
  dataset_cell m' p' ds = Ok (fs', imgs') ->
  imgs = imgs' /\
  (forall i, imgs !! i = (fun d => convert_rgb d.1) <$> ds !! i) /\
  (forall i d, ds !! i = Some d ->
     exists f, fs !! i = Some f /\ embed_item m p d.1 = Ok f) /\
  length fs = length ds /\ length fs' = length ds /\
  (m = m' -> p = p' -> fs = fs').
Proof.
  intros H1 H2.
  pose proof (dataset_cell_Ok _ _ _ _ _ H1) as [Himgs Hfs].
  pose proof (dataset_cell_Ok _ _ _ _ _ H2) as [Himgs' Hfs'].
  split; [congruence|]. split; [|split; [|split; [|split]]].
  - intros i. by rewrite Himgs, list_lookup_fmap.
  - intros i d Hd. destruct (Forall2_lookup_l _ _ _ _ _ Hfs Hd) as (f & Hf & Hemb).
    by exists f.
  - symmetry. by eapply Forall2_length.
  - symmetry. by eapply Forall2_length.
  - intros <- <-. congruence.
Qed.

End Build.

Section Session.
Context `{L : Library}.

(** ** [search_images] and the module state *)

(** No cell binds [current_model]. *)
Lemma notebook_current_model ds g :
  notebook ds = Ok g -> current_model g = None.
Proof.
  unfold notebook. destruct (load_model default_model_choice) as [[m p]|];
    [|discriminate].
  simpl. destruct (dataset_cell m p ds) as [[fs imgs]|]; [|discriminate].
  simpl. by intros [= <-].
Qed.

Lemma search_images_unbound query model_choice k t g :
  current_model g = None ->
  search_images query model_choice k t g = (Raise (NameError "current_model"), g).
Proof. intros H. unfold search_images. by rewrite H. Qed.

(** A call leaves [current_model] as it found it. *)
Lemma search_images_current_model query model_choice k t g :
  current_model (search_images query model_choice k t g).2 = current_model g.
Proof.
  unfold search_images. destruct (current_model g) as [c|] eqn:Ec; [|done].
  destruct (negb (String.eqb model_choice c)); simpl; [|done].
  destruct (load_model model_choice) as [[m p]|]; simpl; done.
Qed.

Lemma gradio_search_state query model_choice t g :
  (gradio_search query model_choice t g).2 = (search_images query model_choice 9 t g).2.
Proof.
  unfold gradio_search. by destruct (search_images query model_choice 9 t g).
Qed.

Lemma reachable_current_model ds g : reachable ds g -> current_model g = None.
Proof.
  induction 1 as [g Hg|g query mc k t _ IH|g query mc t _ IH].
  - by eapply notebook_current_model.
  - by rewrite search_images_current_model.
  - by rewrite gradio_search_state, search_images_current_model.
Qed.

(** A call that returns has got past the comparison and hands back what
    the ranking step computes on the collection as it stood before. *)
Lemma search_images_Ok query model_choice k t g r :
  (search_images query model_choice k t g).1 = Ok r ->
  exists c text_features,
    current_model g = Some c /\
    rank_step (image_features g) (processed_images g) text_features k t = Ok r.
Proof.
  unfold search_images. destruct (current_model g) as [c|]; [|discriminate].
  assert (forall g', image_features g' = image_features g ->
                     processed_images g' = processed_images g ->
            (let* toks := tokenize query in
             let* text_features := encode_text (model g') toks in
             rank_step (image_features g') (processed_images g') text_features k t)
              = Ok r ->
            exists c0 text_features,
              Some c = Some c0 /\
              rank_step (image_features g) (processed_images g) text_features k t
                = Ok r) as Hrun.
  { intros g' -> ->. destruct (tokenize query) as [toks|]; [|discriminate].
    simpl. destruct (encode_text (model g') toks) as [tf|]; [|discriminate].
    simpl. eauto. }
  destruct (negb (String.eqb model_choice c)); simpl.
  - destruct (load_model model_choice) as [[m p]|]; simpl; [|discriminate].
    intros H.
    by apply (Hrun (Build_globals m p (image_features g) (processed_images g) None)).
  - by apply Hrun.
Qed.

(** C10. In every state of a session (the notebook has run, then any
    number of searches), a call of [search_images] raises
    NameError for [current_model], whatever its arguments, and leaves the
    state as it was; [gradio_search] fails with it. *)
Theorem search_images_always_NameError ds g query model_choice k t :
  reachable ds g ->
  search_images query model_choice k t g = (Raise (NameError "current_model"), g) /\
  gradio_search query model_choice t g = (Raise (NameError "current_model"), g).
Proof.
  intros Hg. apply reachable_current_model in Hg.
  split; [by apply search_images_unbound|].
  unfold gradio_search. by rewrite search_images_unbound.
Qed.

(** C1 (as the code has it). A search never rebuilds the collection:
    whatever model is asked for, [image_features] and [processed_images] are
    after the call what they were before it.  Where [current_model] is bound
    to another name than the one asked for and that model loads, the call
    replaces [model] and [preprocess] by the loaded pair, embeds the query
    with the loaded model, and ranks that vector against the collection as
    it stood. *)
Theorem search_images_keeps_collection query model_choice k t g :
  let g' := (search_images query model_choice k t g).2 in
  image_features g' = image_features g /\
  processed_images g' = processed_images g /\
  (forall c m p,
      current_model g = Some c -> c <> model_choice ->
      load_model model_choice = Ok (m, p) ->
      model g' = m /\ preprocess g' = p /\
      (search_images query model_choice k t g).1 =
        (let* toks := tokenize query in
         let* text_features := encode_text m toks in
         rank_step (image_features g) (processed_images g) text_features k t)).
Proof.
  unfold search_images. destruct (current_model g) as [c|] eqn:Ec; simpl.
  - destruct (String.eqb_spec model_choice c) as [->|Hne]; simpl.
    + split; [done|]. split; [done|]. intros c' m p [= <-] Hc. congruence.
    + destruct (load_model model_choice) as [[m p]|] eqn:El; simpl.
      * split; [done|]. split; [done|]. by intros c' m' p' _ _ [= <- <-].
      * split; [done|]. split; [done|]. intros; discriminate.
  - split; [done|]. split; [done|]. intros; discriminate.
Qed.

End Session.

(** * The properties on the concrete library *)

Ltac by_evaluation :=
  vm_compute; first [reflexivity | discriminate | (intros ?; discriminate)].

Lemma demo_notebook : @notebook Demo.lib Demo.dataset = Ok Demo.started.
Proof. by_evaluation. Qed.

Lemma rank_step_above_threshold_witness :
  @rank_step Demo.lib Demo.features3 [0; 1; 2]%nat [1; 0] 2 (1#2)
    = Ok (Some [0; 2]%nat) /\
  (let idx := @matching_idx Demo.lib (similarities Demo.features3 [1; 0]) 2 (1#2) in
   Forall2 (fun (i : nat) (x : nat) => [0; 1; 2]%nat !! i = Some x) idx [0; 2]%nat /\
   Forall (fun i => exists row, Demo.features3 !! i = Some row /\ 1#2 < dot row [1; 0])
     idx /\
   (forall i row, Demo.features3 !! i = Some row -> dot row [1; 0] <= 1#2 -> i ∉ idx)).
Proof.
  split; [by_evaluation|].
  apply (@rank_step_above_threshold Demo.lib Demo.features3 [0; 1; 2]%nat
           [1; 0] 2 (1#2) [0; 2]%nat).
  by_evaluation.
Defined.

Lemma rank_step_length_witness :
  (1 <= 2)%Z /\
  @rank_step Demo.lib Demo.features3 [0; 1; 2]%nat [1; 0] 2 (1#2)
    = Ok (Some [0; 2]%nat) /\
  (Z.of_nat (length [0; 2]%nat) <= 2)%Z.
Proof.
  split; [lia|]. split; [by_evaluation|].
  apply (@rank_step_length Demo.lib Demo.features3 [0; 1; 2]%nat
           [1; 0] 2 (1#2) [0; 2]%nat); [lia|by_evaluation].
Defined.



Lemma scenario_three_items_witness :
  argsort_sorts (@argsort Demo.lib) /\
  @rank_step Demo.lib Demo.features3 [0; 1; 2]%nat [1; 0] 2 (1#2)
    = Ok (Some [0; 2]%nat) /\
  @rank_step Demo.lib Demo.features3 [0; 1; 2]%nat [1; 0] 1 (1#2)
    = Ok (Some [0]%nat) /\
  @rank_step Demo.lib Demo.features3 [0; 1; 2]%nat [1; 0] 2 (95#100)
    = Ok (Some [0]%nat).
Proof.
  pose proof (@scenario_three_items Demo.lib 0%nat 1%nat 2%nat argsort_asc_sorts)
    as (H1 & _ & _ & _ & _ & H2 & H3).
  split; [exact argsort_asc_sorts|]. split; [exact H1|]. split; [exact H2|exact H3].
Defined.

(** C4, as stated, fails: in the session the notebook sets up on this very
    collection a search returns nothing, it raises the NameError of
    [current_model]; and what the ranking step returns for the query vector
    is the list of the two images, without their scores. *)
Lemma scenario_search_raises :
  @notebook Demo.lib Demo.dataset = Ok Demo.started /\
  @image_features Demo.lib Demo.started = [[1; 0]; [0; 1]; [7#10; 7#10]] /\
  @encode_text Demo.lib 0%nat "a photo of a dog" = Ok [1; 0] /\
  @search_images Demo.lib "a photo of a dog" default_model_choice 2 (1#2)
    Demo.started = (Raise (NameError "current_model"), Demo.started) /\
  @rank_step Demo.lib [[1; 0]; [0; 1]; [7#10; 7#10]] [0; 1; 2]%nat [1; 0] 2 (1#2)
    = Ok (Some [0; 2]%nat).
Proof. repeat split; by_evaluation. Qed.

Lemma rank_step_no_match_witness :
  Forall (fun row => length row = length [1; 0] /\ dot row [1; 0] <= 2)
    Demo.features3 /\
  @rank_step Demo.lib Demo.features3 [0; 1; 2]%nat [1; 0] 2 2 = Ok None.
Proof.
  assert (Forall (fun row => length row = length [1; 0] /\ dot row [1; 0] <= 2)
            Demo.features3) as H
    by (repeat constructor; by_evaluation).
  split; [exact H|].
  exact (@rank_step_no_match Demo.lib Demo.features3 [0; 1; 2]%nat [1; 0] 2 2 H).
Defined.

(** C5, as stated, fails: with every similarity at most the threshold the
    ranking step returns [None], which is not the empty list. *)
Lemma no_match_is_None :
  Forall (fun s => ~ 2 < s) (similarities Demo.features3 [1; 0]) /\
  @rank_step Demo.lib Demo.features3 [0; 1; 2]%nat [1; 0] 2 2 = Ok None /\
  @rank_step Demo.lib Demo.features3 [0; 1; 2]%nat [1; 0] 2 2 <> Ok (Some []).
Proof.
  split; [repeat constructor; by_evaluation|].
  split; [by_evaluation|by_evaluation].
Qed.

Lemma rank_step_nonpositive_witness :
  argsort_sorts (@argsort Demo.lib) /\
  length [0; 1; 2]%nat = length Demo.features3 /\
  Forall (fun row => length row = length [1; 0]) Demo.features3 /\
  (-1 <= 0)%Z /\
  Exists (fun s => 1#2 < s) (similarities Demo.features3 [1; 0]) /\
  exists images,
    @rank_step Demo.lib Demo.features3 [0; 1; 2]%nat [1; 0] (-1) (1#2)
      = Ok (Some images) /\
    (-1 = 0 -> images = [])%Z /\
    ((-1 < 0)%Z ->
     Forall2 (fun (i : nat) (x : nat) => [0; 1; 2]%nat !! i = Some x)
       (filter (fun i => 1#2 < sim_at (similarities Demo.features3 [1; 0]) i)
          (take (length Demo.features3 - Z.to_nat (- -1))
             (@argsort Demo.lib (map Qopp (similarities Demo.features3 [1; 0])))))
       images).
Proof.
  assert (Forall (fun row => length row = length [1; 0]) Demo.features3) as H
    by (repeat constructor).
  assert (Exists (fun s => 1#2 < s) (similarities Demo.features3 [1; 0])) as Hany
    by (apply Exists_cons_hd; by_evaluation).
  split; [exact argsort_asc_sorts|]. split; [reflexivity|]. split; [exact H|].
  split; [lia|]. split; [exact Hany|].
  exact (proj2 (@rank_step_nonpositive Demo.lib Demo.features3 [0; 1; 2]%nat [1; 0]
                  (-1) (1#2) argsort_asc_sorts eq_refl H ltac:(lia)) Hany).
Defined.

(** C6, as stated, fails: with [num_results = 0] the ranking step, and a
    search in a session where [current_model] is bound, return the empty
    list; with [num_results = -1] they return all but the last of the
    ordering; in the session the notebook sets up the call raises the
    NameError of [current_model]. *)
Lemma no_check_of_num_results :
  @rank_step Demo.lib Demo.features3 [0; 1; 2]%nat [1; 0] 0 (1#2) = Ok (Some []) /\
  @rank_step Demo.lib Demo.features3 [0; 1; 2]%nat [1; 0] (-1) (1#2)
    = Ok (Some [0; 2]%nat) /\
  (@search_images Demo.lib "a photo of a dog" default_model_choice 0 (1#2)
     Demo.started_bound).1 = Ok (Some []) /\
  (@search_images Demo.lib "a photo of a dog" default_model_choice 0 (1#2)
     Demo.started).1 = Raise (NameError "current_model").
Proof. repeat split; by_evaluation. Qed.

Lemma dataset_cell_aborts_witness :
  @embed_item Demo.lib 0%nat 0%nat 7%nat = Raise (LibraryError "encode_image") /\
  @dataset_cell Demo.lib 0%nat 0%nat [(0%nat, tt); (7%nat, tt); (2%nat, tt)]
    = Raise (LibraryError "encode_image") /\
  length Demo.features3 = length Demo.dataset.
Proof.
  pose proof (@dataset_cell_aborts Demo.lib 0%nat 0%nat) as [Habort Hfull].
  split; [by_evaluation|]. split.
  - apply (Habort [(0%nat, tt)] 7%nat tt [(2%nat, tt)]); [|by_evaluation].
    repeat constructor. exists [1; 0]. by_evaluation.
  - apply (Hfull Demo.dataset Demo.features3 [0; 1; 2]%nat). by_evaluation.
Defined.

(** C7, as stated, fails: one image that cannot be embedded makes the
    whole cell raise; there is no collection of the other images and no
    count of skipped ones. *)
Lemma one_failure_aborts_build :
  @embed_item Demo.lib 0%nat 0%nat 0%nat = Ok [1; 0] /\
  @embed_item Demo.lib 0%nat 0%nat 7%nat = Raise (LibraryError "encode_image") /\
  @embed_item Demo.lib 0%nat 0%nat 2%nat = Ok [7#10; 7#10] /\
  @dataset_cell Demo.lib 0%nat 0%nat [(0%nat, tt); (7%nat, tt); (2%nat, tt)]
    = Raise (LibraryError "encode_image") /\
  ~ exists c, @dataset_cell Demo.lib 0%nat 0%nat
                [(0%nat, tt); (7%nat, tt); (2%nat, tt)] = Ok c.
Proof.
  repeat split; try by_evaluation.
  intros [c Hc]. revert Hc. by_evaluation.
Qed.

Lemma dataset_cell_deterministic_witness :
  @dataset_cell Demo.lib 0%nat 0%nat Demo.dataset
    = Ok (Demo.features3, [0; 1; 2]%nat) /\
  @dataset_cell Demo.lib 1%nat 1%nat Demo.dataset
    = Ok ([[0; 1]; [1; 0]; [7#10; 7#10]], [0; 1; 2]%nat) /\
  length Demo.features3 = length Demo.dataset.
Proof.
  split; [by_evaluation|]. split; [by_evaluation|].
  apply (@dataset_cell_deterministic Demo.lib 0%nat 0%nat 1%nat 1%nat Demo.dataset
           Demo.features3 [0; 1; 2]%nat
           [[0; 1]; [1; 0]; [7#10; 7#10]] [0; 1; 2]%nat);
    by_evaluation.
Defined.

Lemma search_images_always_NameError_witness :
  @reachable Demo.lib Demo.dataset Demo.started /\
  @search_images Demo.lib "a photo of a dog" "OpenCLIP (ViT-L-14)" 9 (2#10)
    Demo.started = (Raise (NameError "current_model"), Demo.started).
Proof.
  assert (@reachable Demo.lib Demo.dataset Demo.started) as H
    by (apply reach_notebook; exact demo_notebook).
  split; [exact H|].
  apply (@search_images_always_NameError Demo.lib Demo.dataset Demo.started
           "a photo of a dog" "OpenCLIP (ViT-L-14)" 9 (2#10) H).
Defined.

Lemma search_images_keeps_collection_witness :
  @current_model Demo.lib Demo.started_bound = Some default_model_choice /\
  default_model_choice <> "OpenCLIP (ViT-B-32)" /\
  @load_model Demo.lib "OpenCLIP (ViT-B-32)" = Ok (1%nat, 1%nat) /\
  @model Demo.lib
    (@search_images Demo.lib "a photo of a dog" "OpenCLIP (ViT-B-32)" 9 (1#2)
       Demo.started_bound).2 = 1%nat /\
  @image_features Demo.lib
    (@search_images Demo.lib "a photo of a dog" "OpenCLIP (ViT-B-32)" 9 (1#2)
       Demo.started_bound).2 = Demo.features3 /\
  (@search_images Demo.lib "a photo of a dog" "OpenCLIP (ViT-B-32)" 9 (1#2)
     Demo.started_bound).1
    = (let* toks := @tokenize Demo.lib "a photo of a dog" in
       let* text_features := @encode_text Demo.lib 1%nat toks in
       @rank_step Demo.lib Demo.features3 [0; 1; 2]%nat text_features 9 (1#2)).
Proof.
  pose proof (@search_images_keeps_collection Demo.lib "a photo of a dog"
                "OpenCLIP (ViT-B-32)" 9 (1#2) Demo.started_bound)
    as (Hfeats & _ & Hswitch).
  assert (default_model_choice <> "OpenCLIP (ViT-B-32)") as Hne by by_evaluation.
  assert (@load_model Demo.lib "OpenCLIP (ViT-B-32)" = Ok (1%nat, 1%nat)) as Hload
    by by_evaluation.
  destruct (Hswitch default_model_choice 1%nat 1%nat eq_refl Hne Hload)
    as (Hmodel & _ & Hresult).
  split; [reflexivity|]. split; [exact Hne|]. split; [exact Hload|].
  split; [exact Hmodel|]. split; [exact Hfeats|exact Hresult].
Defined.

(** C1, as stated, fails.  In a session where [current_model] is bound to
    the loaded model's name, a search that asks for another backend loads
    it and ranks at once: the collection is still the one the first backend
    embedded, not what the new backend's [encode_image] gives for the same
    items, and the images returned are those of the old rows.  In the
    session the notebook sets up, the call raises and switches nothing. *)
Lemma switch_does_not_rebuild :
  let run := @search_images Demo.lib "a photo of a dog" "OpenCLIP (ViT-B-32)"
               9 (1#2) Demo.started_bound in
  @model Demo.lib run.2 = 1%nat /\
  @image_features Demo.lib run.2 = Demo.features3 /\
  @dataset_cell Demo.lib (@model Demo.lib run.2) (@preprocess Demo.lib run.2)
    Demo.dataset = Ok ([[0; 1]; [1; 0]; [7#10; 7#10]], [0; 1; 2]%nat) /\
  @image_features Demo.lib run.2 <> [[0; 1]; [1; 0]; [7#10; 7#10]] /\
  run.1 = Ok (Some [0; 2]%nat) /\
  @rank_step Demo.lib [[0; 1]; [1; 0]; [7#10; 7#10]] [0; 1; 2]%nat [1; 0] 9 (1#2)
    = Ok (Some [1; 2]%nat) /\
  @search_images Demo.lib "a photo of a dog" "OpenCLIP (ViT-B-32)" 9 (1#2)
    Demo.started = (Raise (NameError "current_model"), Demo.started).
Proof. repeat split; by_evaluation. Qed.

(** * Further properties of the notebooks *)

Section Loader.
Context `{L : Library}.

(** X1. [load_model] raises KeyError for every name that is not one of the
    three keys of [MODELS]; for the three keys it hands the entry's name
    (and pretrained tag) to clip or open_clip and returns what that call
    returns. *)
Theorem load_model_dispatch :
  (forall model_choice : string,
      model_choice ∉ ["CLIP (ViT-B/32)"; "OpenCLIP (ViT-B-32)"; "OpenCLIP (ViT-L-14)"] ->
      load_model model_choice = Raise (KeyError model_choice)) /\
  load_model "CLIP (ViT-B/32)" = clip_load "ViT-B/32" /\
  load_model "OpenCLIP (ViT-B-32)" = open_clip_create "ViT-B-32" "laion2b_s34b_b79k" /\
  load_model "OpenCLIP (ViT-L-14)" = open_clip_create "ViT-L-14" "laion2b_s32b_b82k".
Proof.
  split; [|by repeat split].
  intros model_choice Hnot. unfold load_model, MODELS.
  rewrite (not_elem_of_list_to_map_1 _ model_choice); [done|exact Hnot].
Qed.

End Loader.

Section BuildMore.
Context `{L : Library}.

Implicit Types (m : Model) (p : Preprocess) (ds : list (image * label)).
Implicit Types (fs : list vector) (imgs : list image).

Lemma torch_cat_spec (ts rows : list vector) :
  torch_cat ts = Ok rows <->
  rows = ts /\ ts <> [] /\ exists d, Forall (fun u => length u = d) ts.
Proof.
  destruct ts as [|t ts].
  - simpl. split; [discriminate|]. by intros (_ & ? & _).
  - unfold torch_cat.
    destruct (forallb (fun u => Nat.eqb (length u) (length t)) (t :: ts)) eqn:E.
    + split.
      * intros [= <-]. split; [done|]. split; [done|]. exists (length t).
        rewrite forallb_forall in E. apply Forall_forall. intros u Hu.
        apply Nat.eqb_eq, E. by apply list_elem_of_In.
      * by intros (-> & _).
    + split; [discriminate|]. intros (_ & _ & d & Hd). exfalso.
      assert (forallb (fun u => Nat.eqb (length u) (length t)) (t :: ts) = true)
        as E'; [|congruence].
      apply forallb_forall. intros u Hu. apply Nat.eqb_eq.
      rewrite Forall_forall in Hd. rewrite (Hd u), (Hd t); [done|left|].
      by apply list_elem_of_In.
Qed.

Lemma embed_loop_total m p ds : forall fs imgs new,
  Forall2 (fun d f => embed_item m p d.1 = Ok f) ds new ->
  embed_loop m p ds fs imgs
    = Ok (fs ++ new, imgs ++ map (fun d => convert_rgb d.1) ds).
Proof.
  induction ds as [|[x l] ds IH]; intros fs imgs new Hnew.
  - apply Forall2_nil_inv_l in Hnew as ->. simpl. by rewrite !app_nil_r.
  - apply Forall2_cons_inv_l in Hnew as (f & new' & Hf & Hnew' & ->).
    simpl in *. unfold embed_item in Hf.
    destruct (run_preprocess p (convert_rgb x)) as [inp|]; simpl in *;
      [|discriminate].
    rewrite Hf. simpl. rewrite (IH _ _ new' Hnew').
    by rewrite <- !app_assoc.
Qed.

(** X2. The dataset cell produces a collection exactly when the dataset is
    not empty, every item can be embedded and all embeddings have one
    width; the collection then holds the converted images and their
    embeddings, in dataset order. *)
Theorem dataset_cell_succeeds_iff m p ds fs imgs :
  dataset_cell m p ds = Ok (fs, imgs) <->
  ds <> [] /\
  Forall2 (fun d f => embed_item m p d.1 = Ok f) ds fs /\
  (exists d, Forall (fun row => length row = d) fs) /\
  imgs = map (fun d => convert_rgb d.1) ds.
Proof.
  split.
  - intros Hcell. destruct (dataset_cell_Ok _ _ _ _ _ Hcell) as [Himgs Hfs].
    unfold dataset_cell in Hcell.
    destruct (embed_loop m p ds [] []) as [[fs0 imgs0]|] eqn:Eloop; [|discriminate].
    simpl in Hcell. destruct (torch_cat fs0) as [rows|] eqn:Ecat; [|discriminate].
    simpl in Hcell. injection Hcell as -> ->.
    apply torch_cat_spec in Ecat as (-> & Hne & Hd).
    split; [|done]. intros ->. apply Forall2_nil_inv_l in Hfs. done.
  - intros (Hne & Hfs & Hd & ->). unfold dataset_cell.
    rewrite (embed_loop_total m p ds [] [] fs Hfs). simpl.
    assert (torch_cat fs = Ok fs) as ->; [|done].
    apply torch_cat_spec. split; [done|]. split; [|done].
    intros ->. apply Forall2_nil_inv_r in Hfs. done.
Qed.

End BuildMore.

(** ** More on the ranking step *)

Lemma filter_none {A} (P : A -> Prop) `{!forall x, Decision (P x)} (l : list A) :
  Forall (fun x => ~ P x) l -> filter P l = [].
Proof.
  induction 1 as [|x l Hx _ IH]; [done|]. by rewrite filter_cons_False.
Qed.

Lemma filter_agree {A} (P1 P2 : A -> Prop)
    `{!forall x, Decision (P1 x), !forall x, Decision (P2 x)} (l : list A) :
  (forall x, x ∈ l -> P1 x <-> P2 x) -> filter P1 l = filter P2 l.
Proof.
  induction l as [|x l IH]; intros Heq; [done|].
  rewrite !filter_cons. rewrite IH by (intros y Hy; apply Heq; by right).
  destruct (decide (P1 x)) as [H1|H1], (decide (P2 x)) as [H2|H2];
    try done; exfalso; apply (Heq x) in H1 || apply (Heq x) in H2;
    try done; by left.
Qed.

(** On a list sorted by [R], cutting and then filtering by a property that
    [R] carries backwards is filtering and then cutting. *)
Lemma filter_take_sorted {A} (R : relation A) (P : A -> Prop)
    `{!forall x, Decision (P x)} (l : list A) :
  (forall x y, R x y -> P y -> P x) ->
  StronglySorted R l ->
  forall n, filter P (take n l) = take n (filter P l).
Proof.
  intros HRP. induction 1 as [|x l Hs IH Hall]; intros n.
  { by rewrite take_nil, filter_nil, take_nil. }
  destruct n as [|n].
  - by rewrite !take_0.
  - simpl. rewrite !filter_cons. destruct (decide (P x)) as [Hx|Hx].
    + simpl. by rewrite IH.
    + assert (Forall (fun y => ~ P y) l) as Hnone.
      { eapply Forall_impl; [exact Hall|]. intros y Hxy Hy. eauto. }
      rewrite (filter_none P l Hnone).
      rewrite (filter_none P (take n l)); [by rewrite take_nil|].
      by apply Forall_take.
Qed.

(** The number of indices whose score passes is the number of scores that
    pass. *)
Lemma count_above (sims : list Q) (t : Q) :
  length (filter (fun i => t < sim_at sims i) (seq 0 (length sims)))
    = length (filter (fun s => t < s) sims).
Proof.
  induction sims as [|x sims IH] using rev_ind; [done|].
  rewrite length_app. simpl. rewrite Nat.add_1_r, seq_S, !filter_app, !length_app.
  simpl. f_equal.
  - rewrite <- IH. f_equal. apply filter_agree. intros i Hi.
    apply elem_of_seq in Hi. unfold sim_at. rewrite app_nth1 by lia. done.
  - assert (sim_at (sims ++ [x]) (length sims) = x) as Hx.
    { unfold sim_at. rewrite app_nth2 by lia. by rewrite Nat.sub_diag. }
    rewrite !filter_cons, !filter_nil, Hx.
    by destruct (decide (t < x)).
Qed.

Section RankingMore.
Context `{L : Library}.

Implicit Types (feats : list vector) (imgs : list image) (q : vector).
Implicit Types (sims : list Q) (k : Z) (t : Q).

Lemma argsort_descending sims :
  argsort_sorts argsort ->
  StronglySorted (fun i j => sim_at sims j <= sim_at sims i)
    (argsort (map Qopp sims)).
Proof.
  intros Hsort. destruct (Hsort (map Qopp sims)) as [_ Hsorted].
  eapply StronglySorted_weaken; cycle 1.
  - apply Sorted_StronglySorted; [|exact Hsorted].
    intros x y z Hxy Hyz. by eapply Qle_trans.
  - intros i j. simpl. rewrite !sim_at_opp. apply Qopp_le_reflect.
Qed.

Lemma argsort_indices sims i :
  argsort_sorts argsort ->
  i ∈ argsort (map Qopp sims) <-> (i < length sims)%nat.
Proof.
  intros Hsort. destruct (Hsort (map Qopp sims)) as [Hperm _].
  rewrite Hperm, elem_of_seq, length_map. lia.
Qed.

(** For [num_results >= 0] the kept indices are the first [num_results] of
    the indices that pass the threshold, in the order of [argsort]. *)
Lemma matching_idx_top sims k t :
  argsort_sorts argsort -> (0 <= k)%Z ->
  matching_idx sims k t =
    take (Z.to_nat k)
      (filter (fun i => t < sim_at sims i) (argsort (map Qopp sims))).
Proof.
  intros Hsort Hk. unfold matching_idx, slice_to.
  destruct (Z.leb_spec 0 k); [|lia].
  apply (filter_take_sorted (fun i j => sim_at sims j <= sim_at sims i)).
  - intros i j Hij Hj. by eapply Qlt_le_trans.
  - by apply argsort_descending.
Qed.

(** X3. With [num_results >= 0] the number of images a search returns is
    the smaller of [num_results] and the number of collection rows whose
    similarity is above the threshold. *)
Theorem rank_step_count feats imgs q k t res :
  argsort_sorts argsort ->
  (0 <= k)%Z ->
  rank_step feats imgs q k t = Ok (Some res) ->
  length res
    = Nat.min (Z.to_nat k) (length (filter (fun s => t < s) (similarities feats q))).
Proof.
  intros Hsort Hk Hrun.
  destruct (rank_step_Some _ _ _ _ _ _ Hrun) as (_ & _ & Hres & _).
  apply Forall2_length in Hres. rewrite <- Hres.
  rewrite matching_idx_top, length_take by done. f_equal.
  rewrite <- count_above. destruct (Hsort (map Qopp (similarities feats q)))
    as [Hperm _].
  rewrite Hperm. by rewrite length_map.
Qed.

(** X4. With [num_results >= 1] a returned list is not empty and starts
    with an image whose row has the largest similarity of the whole
    collection. *)
Theorem rank_step_best_first feats imgs q k t res :
  argsort_sorts argsort ->
  (1 <= k)%Z ->
  rank_step feats imgs q k t = Ok (Some res) ->
  exists i row x rest,
    res = x :: rest /\ imgs !! i = Some x /\ feats !! i = Some row /\
    t < dot row q /\
    forall row', row' ∈ feats -> dot row' q <= dot row q.
Proof.
  intros Hsort Hk Hrun.
  destruct (rank_step_Some _ _ _ _ _ _ Hrun) as (_ & Hany & Hres & Hrange).
  set (sims := similarities feats q) in *.
  pose proof (argsort_descending sims Hsort) as Hdesc.
  apply Exists_exists in Hany as (s & Hs & Hlt).
  apply list_elem_of_lookup in Hs as [j Hj].
  assert (j ∈ argsort (map Qopp sims)) as Hjin.
  { apply argsort_indices; [done|]. apply lookup_lt_is_Some; eauto. }
  destruct (argsort (map Qopp sims)) as [|a0 rest0] eqn:Earg;
    [by apply elem_of_nil in Hjin|].
  apply StronglySorted_inv in Hdesc as [_ Hhead]. rewrite Forall_forall in Hhead.
  assert (forall i, (i < length sims)%nat -> sim_at sims i <= sim_at sims a0) as Hmax.
  { intros i Hi. assert (i ∈ a0 :: rest0) as Hin.
    { rewrite <- Earg. by apply argsort_indices. }
    apply elem_of_cons in Hin as [->|Hin]; [apply Qle_refl|by apply Hhead]. }
  assert (t < sim_at sims a0) as Ha0.
  { eapply Qlt_le_trans; [|apply (Hmax j); apply lookup_lt_is_Some; eauto].
    by rewrite (sim_at_lookup _ _ _ Hj). }
  assert (matching_idx sims k t =
            a0 :: filter (fun i => t < sim_at sims i)
                    (take (Z.to_nat k - 1) rest0)) as Hidx.
  { unfold matching_idx, slice_to. rewrite Earg.
    destruct (Z.leb_spec 0 k); [|lia].
    replace (Z.to_nat k) with (S (Z.to_nat k - 1)) at 1 by lia. simpl.
    by rewrite filter_cons_True. }
  rewrite Hidx in Hres, Hrange.
  apply Forall2_cons_inv_l in Hres as (x & rest & Hx & _ & ->).
  apply Forall_cons in Hrange as [Ha0range _].
  destruct (similarities_lookup feats q a0) as (row & Hrow & Hsim).
  { unfold similarities. by rewrite length_map. }
  fold sims in Hsim. exists a0, row, x, rest.
  split; [done|]. split; [done|]. split; [done|]. split; [by rewrite <- Hsim|].
  intros row' Hrow'. apply list_elem_of_lookup in Hrow' as [i Hi].
  rewrite <- Hsim.
  assert (sim_at sims i = dot row' q) as <-.
  { apply sim_at_lookup. unfold sims, similarities.
    by rewrite list_lookup_fmap, Hi. }
  apply Hmax. unfold sims, similarities. rewrite length_map.
  apply lookup_lt_is_Some; eauto.
Qed.

Lemma matmul_T_mismatch feats q :
  Exists (fun row => length row <> length q) feats ->
  matmul_T feats q = Raise ValueError.
Proof.
  intros Hex. unfold matmul_T.
  destruct (forallb (fun row => Nat.eqb (length row) (length q)) feats) eqn:E;
    [|done].
  exfalso. rewrite forallb_forall in E.
  apply Exists_exists in Hex as (row & Hrow & Hne). apply Hne.
  apply Nat.eqb_eq, E. by apply list_elem_of_In.
Qed.

Lemma dataset_cell_shape (m : Model) (p : Preprocess) ds feats imgs :
  dataset_cell m p ds = Ok (feats, imgs) ->
  length imgs = length feats /\ feats <> [] /\
  exists d, Forall (fun row => length row = d) feats.
Proof.
  intros Hcell. destruct (dataset_cell_Ok _ _ _ _ _ Hcell) as [-> Hfs].
  apply Forall2_length in Hfs as Hlen. rewrite length_map. split; [done|].
  unfold dataset_cell in Hcell.
  destruct (embed_loop m p ds [] []) as [[fs0 imgs0]|]; [|discriminate].
  simpl in Hcell. destruct (torch_cat fs0) as [rows|] eqn:Ecat; [|discriminate].
  simpl in Hcell. injection Hcell as -> _.
  unfold torch_cat in Ecat. destruct fs0 as [|t0 fs0]; [discriminate|].
  destruct (forallb (fun u => Nat.eqb (length u) (length t0)) (t0 :: fs0)) eqn:E;
    [|discriminate].
  injection Ecat as <-. split; [done|]. exists (length t0).
  rewrite forallb_forall in E. apply Forall_forall. intros u Hu.
  apply Nat.eqb_eq, E. by apply list_elem_of_In.
Qed.

(** X5. On a collection the dataset cell has built, the ranking step raises
    nothing when the query vector has the width of the collection's rows,
    and raises ValueError when it has another width. *)
Theorem built_collection_ranks (m : Model) (p : Preprocess) ds feats imgs q k t row0 :
  argsort_sorts argsort ->
  dataset_cell m p ds = Ok (feats, imgs) ->
  feats !! 0%nat = Some row0 ->
  (length row0 = length q -> exists r, rank_step feats imgs q k t = Ok r) /\
  (length row0 <> length q -> rank_step feats imgs q k t = Raise ValueError).
Proof.
  intros Hsort Hcell Hrow0.
  destruct (dataset_cell_shape _ _ _ _ _ Hcell) as (Hlen & _ & d & Hd).
  assert (length row0 = d) as Hd0.
  { rewrite Forall_forall in Hd. apply Hd. apply list_elem_of_lookup. eauto. }
  split.
  - intros Hq. apply rank_step_total; [done|done|].
    eapply Forall_impl; [exact Hd|]. intros row Hrow. simpl in Hrow. congruence.
  - intros Hq. unfold rank_step. rewrite matmul_T_mismatch; [done|].
    apply Exists_exists. exists row0. split; [|done].
    apply list_elem_of_lookup. eauto.
Qed.

End RankingMore.

Section SessionMore.
Context `{L : Library}.

(** ** More on [search_images] and [gradio_search] *)




(** X7. Where [current_model] holds another name, a search for a name that
    is not a key of [MODELS] raises KeyError for it and leaves the module
    state as it was. *)
Theorem search_images_unknown_model query model_choice k t g c :
  current_model g = Some c -> c <> model_choice ->
  model_choice ∉ ["CLIP (ViT-B/32)"; "OpenCLIP (ViT-B-32)"; "OpenCLIP (ViT-L-14)"] ->
  search_images query model_choice k t g = (Raise (KeyError model_choice), g).
Proof.
  intros Hc Hne Hnot. unfold search_images. rewrite Hc.
  destruct (String.eqb_spec model_choice c) as [->|_]; [done|].
  simpl. unfold load_model, MODELS.
  by rewrite (not_elem_of_list_to_map_1 _ model_choice).
Qed.

(** X8. A switch to a model whose text embedding has another width than
    the rows of the collection makes the search raise ValueError, and the
    switched model stays in place although the call failed. *)
Theorem search_images_width_mismatch query model_choice k t g c m p toks tf :
  current_model g = Some c -> c <> model_choice ->
  load_model model_choice = Ok (m, p) ->
  tokenize query = Ok toks ->
  encode_text m toks = Ok tf ->
  Exists (fun row => length row <> length tf) (image_features g) ->
  search_images query model_choice k t g =
    (Raise ValueError,
     Build_globals m p (image_features g) (processed_images g) (Some c)).
Proof.
  intros Hc Hne Hload Htok Htf Hex. unfold search_images. rewrite Hc.
  destruct (String.eqb_spec model_choice c) as [->|_]; [done|].
  simpl. rewrite Hload. simpl. rewrite Htok. simpl. rewrite Htf. simpl.
  unfold rank_step. by rewrite matmul_T_mismatch.
Qed.

(** X9. A grid that [gradio_search] returns has exactly nine entries:
    the search it ran returned too, and the grid is the images of that
    search, in its order, followed by [None] up to nine; for a search that
    returned [None] the grid is nine times [None]. *)
Theorem gradio_search_grid query model_choice t g grid g' :
  gradio_search query model_choice t g = (Ok grid, g') ->
  length grid = 9%nat /\
  exists r,
    search_images query model_choice 9 t g = (Ok r, g') /\
    grid = map Some (default [] r) ++ replicate (9 - length (default [] r)) None.
Proof.
  unfold gradio_search.
  destruct (search_images query model_choice 9 t g) as [r g1] eqn:Es.
  destruct r as [[images|]|]; simpl; [| |discriminate].
  - intros [= <- <-].
    assert (length images <= 9)%nat as Hlen.
    { destruct (search_images_Ok query model_choice 9 t g (Some images))
        as (c & tf & _ & Hrun); [by rewrite Es|].
      destruct (rank_step_Some _ _ _ _ _ _ Hrun) as (_ & _ & Hres & _).
      apply Forall2_length in Hres. rewrite <- Hres. unfold matching_idx.
      etrans; [apply length_filter|].
      pose proof (slice_to_length 9
                    (argsort (map Qopp (similarities (image_features g) tf)))
                    ltac:(lia)).
      lia. }
    split; [|by exists (Some images)].
    rewrite length_app, length_map, length_replicate. lia.
  - intros [= <- <-]. split; [done|]. by exists None.
Qed.

(** X10. No search changes the module state of a session: every state a
    session reaches is the one the notebook left, the loaded model is the
    default one and the collection is what that model embedded. *)
Theorem reachable_is_initial ds g :
  reachable ds g ->
  notebook ds = Ok g /\
  load_model default_model_choice = Ok (model g, preprocess g) /\
  dataset_cell (model g) (preprocess g) ds
    = Ok (image_features g, processed_images g).
Proof.
  intros Hg.
  assert (notebook ds = Ok g) as Hinit.
  { induction Hg as [g Hg|g query mc k t _ IH|g query mc t _ IH]; [done| |].
    - rewrite search_images_unbound; [done|]. by eapply notebook_current_model.
    - rewrite gradio_search_state, search_images_unbound; [done|].
      by eapply notebook_current_model. }
  split; [done|]. revert Hinit. unfold notebook.
  destruct (load_model default_model_choice) as [[m p]|]; [|discriminate].
  simpl. destruct (dataset_cell m p ds) as [[fs imgs]|] eqn:Ecell; [|discriminate].
  simpl. intros [= <-]. simpl. by rewrite Ecell.
Qed.

End SessionMore.

Section BarkFacts.
Context `{B : BarkLibrary}.

Implicit Types (files : gmap string (Z * audio)).

(** ** [generate_audio_from_text] *)

(** X11. A call that returns gives the path "output.wav"; the voice preset
    is then a key of [VOICE_PRESETS], the file holds at the Bark sample
    rate the audio generated for the text with that preset's speaker, and
    no other file has changed.  A call that raises writes nothing. *)
Theorem generate_audio_from_text_writes text voice_preset temperature files r files' :
  generate_audio_from_text text voice_preset temperature files = (r, files') ->
  (forall path, r = Ok path ->
     path = "output.wav" /\
     exists speaker samples,
       VOICE_PRESETS !! voice_preset = Some speaker /\
       generate_audio text speaker temperature = Ok samples /\
       files' !! "output.wav" = Some (SAMPLE_RATE, samples) /\
       forall other, other <> "output.wav" -> files' !! other = files !! other) /\
  (forall e, r = Raise e -> files' = files).
Proof.
  unfold generate_audio_from_text.
  destruct (VOICE_PRESETS !! voice_preset) as [speaker|] eqn:Ep.
  - destruct (generate_audio text speaker temperature) as [samples|e0] eqn:Eg.
    + intros [= <- <-]. split; [|discriminate].
      intros path [= <-]. split; [done|]. exists speaker, samples.
      unfold write_wav. split; [done|]. split; [done|].
      split; [apply lookup_insert_eq|].
      intros other Hother. by apply lookup_insert_ne.
    + intros [= <- <-]. split; [discriminate|done].
  - intros [= <- <-]. split; [discriminate|done].
Qed.

(** X12. Every generation goes to the same file: after a call that
    returns, the files are what that call alone would have left, whatever
    was generated before it. *)
Theorem generate_audio_from_text_overwrites
    text1 preset1 temperature1 text2 preset2 temperature2 files path :
  (generate_audio_from_text text2 preset2 temperature2 files).1 = Ok path ->
  (generate_audio_from_text text2 preset2 temperature2
     (generate_audio_from_text text1 preset1 temperature1 files).2).2
    = (generate_audio_from_text text2 preset2 temperature2 files).2.
Proof.
  intros Hok.
  assert ((generate_audio_from_text text1 preset1 temperature1 files).2 = files \/
          exists samples1,
            (generate_audio_from_text text1 preset1 temperature1 files).2
              = <["output.wav" := (SAMPLE_RATE, samples1)]> files) as Hfirst.
  { unfold generate_audio_from_text.
    destruct (VOICE_PRESETS !! preset1) as [speaker1|]; [|by left].
    destruct (generate_audio text1 speaker1 temperature1) as [samples1|];
      [|by left].
    right. by exists samples1. }
  revert Hok Hfirst.
  generalize (generate_audio_from_text text1 preset1 temperature1 files).2.
  intros files1. unfold generate_audio_from_text.
  destruct (VOICE_PRESETS !! preset2) as [speaker2|]; [|discriminate].
  destruct (generate_audio text2 speaker2 temperature2) as [samples2|];
    [|discriminate].
  simpl. intros _ [->|[samples1 ->]]; [done|].
  unfold write_wav. apply insert_insert_eq.
Qed.


End BarkFacts.

Section TopK.
Context `{L : Library}.

(** X14. With [num_results >= 0] the returned images are the best ones: a
    row that scores above the threshold and is not returned is left out
    only because [num_results] images were returned already, each of them
    with a similarity at least as large. *)
Theorem rank_step_top_k (feats : list vector) (imgs : list image) (q : vector)
    (k : Z) (t : Q) (res : list image) :
  argsort_sorts argsort ->
  (0 <= k)%Z ->
  rank_step feats imgs q k t = Ok (Some res) ->
  let sims := similarities feats q in
  let idx := matching_idx sims k t in
  forall j, (j < length feats)%nat -> t < sim_at sims j -> j ∉ idx ->
    length res = Z.to_nat k /\
    Forall (fun i => sim_at sims j <= sim_at sims i) idx.
Proof.
  intros Hsort Hk Hrun sims idx j Hj Habove Hout.
  destruct (rank_step_Some _ _ _ _ _ _ Hrun) as (_ & _ & Hres & _).
  apply Forall2_length in Hres. fold sims idx in Hres.
  set (passing := filter (fun i => t < sim_at sims i) (argsort (map Qopp sims))).
  assert (idx = take (Z.to_nat k) passing) as Hidx
    by (by apply matching_idx_top).
  assert (StronglySorted (fun i j => sim_at sims j <= sim_at sims i) passing)
    as Hsorted.
  { eapply StronglySorted_sublist; [apply sublist_filter; apply _|].
    by apply argsort_descending. }
  assert (j ∈ passing) as Hjin.
  { apply list_elem_of_filter. split; [done|]. apply argsort_indices; [done|].
    unfold sims, similarities. by rewrite length_map. }
  rewrite <- (take_drop (Z.to_nat k) passing) in Hjin, Hsorted.
  apply elem_of_app in Hjin as [Hjin|Hjin]; [by rewrite <- Hidx in Hjin|].
  split.
  - rewrite <- Hres, Hidx, length_take.
    assert (Z.to_nat k < length passing)%nat; [|lia].
    destruct (decide (Z.to_nat k < length passing)%nat) as [|Hge]; [done|].
    rewrite drop_ge in Hjin by lia. by apply elem_of_nil in Hjin.
  - rewrite Hidx. apply Forall_forall. intros i Hi.
    exact (StronglySorted_app_1_elem_of _ _ _ _ _ Hsorted Hi Hjin).
Qed.

End TopK.

(** ** The further properties on the concrete libraries *)

Lemma load_model_dispatch_witness :
  ("ResNet" ∉ ["CLIP (ViT-B/32)"; "OpenCLIP (ViT-B-32)"; "OpenCLIP (ViT-L-14)"]) /\
  @load_model Demo.lib "ResNet" = Raise (KeyError "ResNet").
Proof.
  assert ("ResNet" ∉ ["CLIP (ViT-B/32)"; "OpenCLIP (ViT-B-32)"; "OpenCLIP (ViT-L-14)"])
    as Hnot.
  { intros Hin. repeat (apply elem_of_cons in Hin as [Hin|Hin]; [discriminate|]).
    by apply elem_of_nil in Hin. }
  split; [exact Hnot|].
  exact (proj1 (@load_model_dispatch Demo.lib) "ResNet" Hnot).
Defined.

Lemma dataset_cell_succeeds_iff_witness :
  @dataset_cell Demo.lib 0%nat 0%nat Demo.dataset
    = Ok (Demo.features3, [0; 1; 2]%nat) /\
  Demo.dataset <> [] /\
  exists d, Forall (fun row : vector => length row = d) Demo.features3.
Proof.
  assert (@dataset_cell Demo.lib 0%nat 0%nat Demo.dataset
            = Ok (Demo.features3, [0; 1; 2]%nat)) as Hcell by by_evaluation.
  destruct (proj1 (@dataset_cell_succeeds_iff Demo.lib 0%nat 0%nat Demo.dataset
                     Demo.features3 [0; 1; 2]%nat) Hcell) as (Hne & _ & Hd & _).
  split; [exact Hcell|]. split; [exact Hne|exact Hd].
Defined.

Lemma rank_step_count_witness :
  argsort_sorts (@argsort Demo.lib) /\ (0 <= 1)%Z /\
  @rank_step Demo.lib Demo.features3 [0; 1; 2]%nat [1; 0] 1 (1#2)
    = Ok (Some [0]%nat) /\
  length [0]%nat
    = Nat.min (Z.to_nat 1)
        (length (filter (fun s => 1#2 < s) (similarities Demo.features3 [1; 0]))).
Proof.
  split; [exact argsort_asc_sorts|]. split; [lia|]. split; [by_evaluation|].
  apply (@rank_step_count Demo.lib Demo.features3 [0; 1; 2]%nat [1; 0] 1 (1#2)
           [0]%nat argsort_asc_sorts); [lia|by_evaluation].
Defined.

Lemma rank_step_best_first_witness :
  argsort_sorts (@argsort Demo.lib) /\ (1 <= 2)%Z /\
  @rank_step Demo.lib Demo.features3 [0; 1; 2]%nat [1; 0] 2 (1#2)
    = Ok (Some [0; 2]%nat) /\
  exists (i : nat) (row : vector) (x : nat) (rest : list nat),
    [0; 2]%nat = x :: rest /\ [0; 1; 2]%nat !! i = Some x /\
    Demo.features3 !! i = Some row /\ 1#2 < dot row [1; 0] /\
    forall row', row' ∈ Demo.features3 -> dot row' [1; 0] <= dot row [1; 0].
Proof.
  split; [exact argsort_asc_sorts|]. split; [lia|]. split; [by_evaluation|].
  apply (@rank_step_best_first Demo.lib Demo.features3 [0; 1; 2]%nat [1; 0] 2 (1#2)
           [0; 2]%nat argsort_asc_sorts); [lia|by_evaluation].
Defined.

Lemma rank_step_top_k_witness :
  argsort_sorts (@argsort Demo.lib) /\ (0 <= 1)%Z /\
  @rank_step Demo.lib Demo.features3 [0; 1; 2]%nat [1; 0] 1 (1#2)
    = Ok (Some [0]%nat) /\
  (2 < length Demo.features3)%nat /\
  1#2 < sim_at (similarities Demo.features3 [1; 0]) 2 /\
  (2%nat ∉ @matching_idx Demo.lib (similarities Demo.features3 [1; 0]) 1 (1#2)) /\
  length [0]%nat = Z.to_nat 1 /\
  Forall (fun i => sim_at (similarities Demo.features3 [1; 0]) 2
                     <= sim_at (similarities Demo.features3 [1; 0]) i)
    (@matching_idx Demo.lib (similarities Demo.features3 [1; 0]) 1 (1#2)).
Proof.
  assert (2%nat ∉ @matching_idx Demo.lib (similarities Demo.features3 [1; 0]) 1 (1#2))
    as Hout.
  { intros Hin. vm_compute in Hin. apply elem_of_cons in Hin as [Hin|Hin];
      [discriminate|by apply elem_of_nil in Hin]. }
  assert (1#2 < sim_at (similarities Demo.features3 [1; 0]) 2) as Habove
    by by_evaluation.
  split; [exact argsort_asc_sorts|]. split; [lia|]. split; [by_evaluation|].
  split; [simpl; lia|]. split; [exact Habove|]. split; [exact Hout|].
  apply (@rank_step_top_k Demo.lib Demo.features3 [0; 1; 2]%nat [1; 0] 1 (1#2)
           [0]%nat argsort_asc_sorts ltac:(lia) ltac:(by_evaluation) 2%nat
           ltac:(simpl; lia) Habove Hout).
Defined.

Lemma built_collection_ranks_witness :
  argsort_sorts (@argsort Demo.lib) /\
  @dataset_cell Demo.lib 0%nat 0%nat Demo.dataset
    = Ok (Demo.features3, [0; 1; 2]%nat) /\
  Demo.features3 !! 0%nat = Some [1; 0] /\
  (exists r, @rank_step Demo.lib Demo.features3 [0; 1; 2]%nat [1; 0] 9 (2#10) = Ok r) /\
  @rank_step Demo.lib Demo.features3 [0; 1; 2]%nat [1; 0; 0] 9 (2#10)
    = Raise ValueError.
Proof.
  assert (@dataset_cell Demo.lib 0%nat 0%nat Demo.dataset
            = Ok (Demo.features3, [0; 1; 2]%nat)) as Hcell by by_evaluation.
  split; [exact argsort_asc_sorts|]. split; [exact Hcell|]. split; [reflexivity|].
  split.
  - apply (proj1 (@built_collection_ranks Demo.lib 0%nat 0%nat Demo.dataset
                    Demo.features3 [0; 1; 2]%nat [1; 0] 9 (2#10) [1; 0]
                    argsort_asc_sorts Hcell eq_refl)).
    reflexivity.
  - apply (proj2 (@built_collection_ranks Demo.lib 0%nat 0%nat Demo.dataset
                    Demo.features3 [0; 1; 2]%nat [1; 0; 0] 9 (2#10) [1; 0]
                    argsort_asc_sorts Hcell eq_refl)).
    simpl. lia.
Defined.


Lemma search_images_unknown_model_witness :
  @current_model Demo.lib Demo.started_bound = Some default_model_choice /\
  default_model_choice <> "ResNet" /\
  @search_images Demo.lib "a photo of a dog" "ResNet" 9 (2#10) Demo.started_bound
    = (Raise (KeyError "ResNet"), Demo.started_bound).
Proof.
  assert (default_model_choice <> "ResNet") as Hne by by_evaluation.
  split; [reflexivity|]. split; [exact Hne|].
  apply (@search_images_unknown_model Demo.lib "a photo of a dog" "ResNet" 9 (2#10)
           Demo.started_bound default_model_choice eq_refl Hne).
  intros Hin. repeat (apply elem_of_cons in Hin as [Hin|Hin]; [discriminate|]).
  by apply elem_of_nil in Hin.
Defined.

Lemma search_images_width_mismatch_witness :
  @load_model Demo.lib "OpenCLIP (ViT-L-14)" = Ok (2%nat, 2%nat) /\
  @encode_text Demo.lib 2%nat "a photo of a dog" = Ok [1; 0; 0] /\
  @search_images Demo.lib "a photo of a dog" "OpenCLIP (ViT-L-14)" 9 (2#10)
    Demo.started_bound
    = (Raise ValueError,
       @Build_globals Demo.lib 2%nat 2%nat Demo.features3 [0; 1; 2]%nat
         (Some default_model_choice)).
Proof.
  assert (@load_model Demo.lib "OpenCLIP (ViT-L-14)" = Ok (2%nat, 2%nat)) as Hload
    by by_evaluation.
  split; [exact Hload|]. split; [reflexivity|].
  apply (@search_images_width_mismatch Demo.lib "a photo of a dog"
           "OpenCLIP (ViT-L-14)" 9 (2#10) Demo.started_bound default_model_choice
           2%nat 2%nat "a photo of a dog" [1; 0; 0] eq_refl
           ltac:(by_evaluation) Hload eq_refl eq_refl).
  apply Exists_cons_hd. simpl. lia.
Defined.

Lemma gradio_search_grid_witness :
  @gradio_search Demo.lib "a photo of a dog" default_model_choice (1#2)
    Demo.started_bound
    = (Ok [Some 0%nat; Some 2%nat; None; None; None; None; None; None; None],
       Demo.started_bound) /\
  length [Some 0%nat; Some 2%nat; None; None; None; None; None; None; None] = 9%nat /\
  exists r,
    @search_images Demo.lib "a photo of a dog" default_model_choice 9 (1#2)
      Demo.started_bound = (Ok r, Demo.started_bound) /\
    [Some 0%nat; Some 2%nat; None; None; None; None; None; None; None]
      = map Some (default [] r) ++ replicate (9 - length (default [] r)) None.
Proof.
  assert (@gradio_search Demo.lib "a photo of a dog" default_model_choice (1#2)
            Demo.started_bound
          = (Ok [Some 0%nat; Some 2%nat; None; None; None; None; None; None; None],
             Demo.started_bound)) as Hrun by by_evaluation.
  split; [exact Hrun|].
  exact (@gradio_search_grid Demo.lib _ _ _ _ _ _ Hrun).
Defined.

Lemma reachable_is_initial_witness :
  @reachable Demo.lib Demo.dataset
    (@gradio_search Demo.lib "a photo of a dog" "OpenCLIP (ViT-B-32)" (2#10)
       Demo.started).2 /\
  @notebook Demo.lib Demo.dataset
    = Ok (@gradio_search Demo.lib "a photo of a dog" "OpenCLIP (ViT-B-32)" (2#10)
            Demo.started).2.
Proof.
  assert (@reachable Demo.lib Demo.dataset
            (@gradio_search Demo.lib "a photo of a dog" "OpenCLIP (ViT-B-32)" (2#10)
               Demo.started).2) as Hreach.
  { apply reach_gradio, reach_notebook. exact demo_notebook. }
  split; [exact Hreach|].
  exact (proj1 (@reachable_is_initial Demo.lib Demo.dataset _ Hreach)).
Defined.

Lemma generate_audio_from_text_writes_witness :
  @generate_audio_from_text BarkDemo.lib "Breaking news" "Professional (Male)"
    (7#10) ∅
    = (Ok "output.wav",
       {["output.wav" := (24000%Z, "v2/en_speaker_3: Breaking news")]}) /\
  "output.wav" = "output.wav".
Proof.
  assert (@generate_audio_from_text BarkDemo.lib "Breaking news"
            "Professional (Male)" (7#10) ∅
          = (Ok "output.wav",
             {["output.wav" := (24000%Z, "v2/en_speaker_3: Breaking news")]}))
    as Hrun by reflexivity.
  split; [exact Hrun|].
  exact (proj1 (proj1 (@generate_audio_from_text_writes BarkDemo.lib _ _ _ _ _ _ Hrun)
                  "output.wav" eq_refl)).
Defined.

Lemma generate_audio_from_text_overwrites_witness :
  (@generate_audio_from_text BarkDemo.lib "Breaking news" "Professional (Male)"
     (7#10) ∅).1 = Ok "output.wav" /\
  (@generate_audio_from_text BarkDemo.lib "Breaking news" "Professional (Male)" (7#10)
     (@generate_audio_from_text BarkDemo.lib "Once upon a time" "Narrator (Female)"
        (7#10) ∅).2).2
    = (@generate_audio_from_text BarkDemo.lib "Breaking news" "Professional (Male)"
         (7#10) ∅).2.
Proof.
  split; [reflexivity|].
  apply (@generate_audio_from_text_overwrites BarkDemo.lib "Once upon a time"
           "Narrator (Female)" (7#10) "Breaking news" "Professional (Male)" (7#10)
           ∅ "output.wav").
  reflexivity.
Defined.

